(** * huskyTech2: the application bootstrap of [main.cpp]

    A shallow embedding of [huskyTech2/main.cpp]: the three process-wide
    variables the file touches, the calls it makes into GLFW and GLEW
    (recorded in a chronological log, each with the variables as they stood
    when the call was made), and the four functions [input_update], [draw],
    [explode] and [main].  The answers of the libraries are supplied by an
    environment, so every statement below is quantified over all behaviours
    of the window system. *)

From Stdlib Require Import ZArith List String Ascii Bool Lia.
Import ListNotations.
Open Scope Z_scope.

(** ** Constants of the GLFW and GLEW headers *)

Module GLFW.
Definition GLFW_PRESS : Z := 1.
Definition GLFW_RELEASE : Z := 0.
Definition GLFW_KEY_ESCAPE : Z := 256.
Definition GLFW_STICKY_KEYS : Z := 0x00033002.
Definition GLFW_CONTEXT_VERSION_MAJOR : Z := 0x00022002.
Definition GLFW_CONTEXT_VERSION_MINOR : Z := 0x00022003.
Definition GLFW_OPENGL_FORWARD_COMPAT : Z := 0x00022006.
Definition GLFW_OPENGL_PROFILE : Z := 0x00022008.
Definition GLFW_OPENGL_CORE_PROFILE : Z := 0x00032001.
Definition GL_TRUE : Z := 1.
Definition GLEW_OK : Z := 0.
Definition NULL : Z := 0.
End GLFW.
Import GLFW.

(** ** Program state *)

(** The process-wide variables read or written by [main.cpp]: the window
    pointer, the alive flag, and GLEW's [glewExperimental]. *)
Record Globals : Type := mkGlobals {
  window : Z;
  alive : bool;
  glewExperimental : bool
}.

(** Modelled from the spec: [globals.h], which declares and initialises
    [window] and [alive], is not among the sources.  The spec's data model
    describes the alive flag as "process-wide boolean state, initialized
    true"; the window pointer is assigned by [main] before its first use. *)
Definition globals_h : Globals :=
  {| window := NULL; alive := true; glewExperimental := false |}.

(** Calls that leave the translation unit, plus the entry into [draw]. *)
Inductive Call : Type :=
| Call_glfwInit
| Call_glfwWindowHint (hint value : Z)
| Call_glfwCreateWindow (width height : Z) (title : string) (monitor share : Z)
| Call_glfwTerminate
| Call_glfwMakeContextCurrent (win : Z)
| Call_glewInit
| Call_glfwSetInputMode (win mode value : Z)
| Call_glfwGetKey (win key : Z)
| Call_glfwWindowShouldClose (win : Z)
| Call_glfwDestroyWindow (win : Z)
| Call_fprintf_stderr (msg : string)
| Call_draw.

(** A log entry: the call, and the globals at the moment it was made. *)
Record Entry : Type := mkEntry {
  call : Call;
  seen : Globals
}.

(** What the libraries answer.  [glfwGetKey_result k] is the value of the
    [k]-th call (counting from 0) of [glfwGetKey], and likewise for
    [glfwWindowShouldClose]. *)
Record Env : Type := mkEnv {
  glfwInit_result : Z;
  glfwCreateWindow_result : Z;
  glewInit_result : Z;
  glfwGetKey_result : nat -> Z;
  glfwWindowShouldClose_result : nat -> Z
}.

Record World : Type := mkWorld {
  globals : Globals;
  key_polls : nat;
  close_polls : nat;
  log : list Entry
}.

Definition boot (g : Globals) : World :=
  {| globals := g; key_polls := 0; close_polls := 0; log := [] |}.

(** ** A small monad: state, early [return] from [main], and fuel *)

Inductive Flow (A : Type) : Type :=
| Next (a : A)
| Return (status : Z)
| Spin.
Arguments Next {A} a.
Arguments Return {A} status.
Arguments Spin {A}.

Definition Prog (A : Type) : Type := World -> Flow A * World.

Definition ret {A} (a : A) : Prog A := fun w => (Next a, w).

Definition bind {A B} (m : Prog A) (f : A -> Prog B) : Prog B :=
  fun w =>
    match m w with
    | (Next a, w') => f a w'
    | (Return z, w') => (Return z, w')
    | (Spin, w') => (Spin, w')
    end.

Notation "x <- m ; f" := (bind m (fun x => f))
  (at level 61, m at next level, right associativity).
Notation "m ;; f" := (bind m (fun _ => f))
  (at level 61, right associativity).

Definition return_ {A} (status : Z) : Prog A := fun w => (Return status, w).

Definition when (c : bool) (m : Prog unit) : Prog unit :=
  if c then m else ret tt.

Definition emit (c : Call) : Prog unit :=
  fun w =>
    (Next tt,
     {| globals := globals w; key_polls := key_polls w;
        close_polls := close_polls w;
        log := log w ++ [mkEntry c (globals w)] |}).

Definition read_window : Prog Z := fun w => (Next (window (globals w)), w).
Definition read_alive : Prog bool := fun w => (Next (alive (globals w)), w).

Definition modify (f : Globals -> Globals) : Prog unit :=
  fun w =>
    (Next tt,
     {| globals := f (globals w); key_polls := key_polls w;
        close_polls := close_polls w; log := log w |}).

Definition write_window (p : Z) : Prog unit :=
  modify (fun g => {| window := p; alive := alive g;
                      glewExperimental := glewExperimental g |}).
Definition write_alive (b : bool) : Prog unit :=
  modify (fun g => {| window := window g; alive := b;
                      glewExperimental := glewExperimental g |}).
Definition write_glewExperimental (b : bool) : Prog unit :=
  modify (fun g => {| window := window g; alive := alive g;
                      glewExperimental := b |}).

(** ** The library calls *)

Section Program.
Variable env : Env.

Definition glfwInit : Prog Z :=
  emit Call_glfwInit ;; ret (glfwInit_result env).

Definition glfwWindowHint (hint value : Z) : Prog unit :=
  emit (Call_glfwWindowHint hint value).

Definition glfwCreateWindow (width height : Z) (title : string)
    (monitor share : Z) : Prog Z :=
  emit (Call_glfwCreateWindow width height title monitor share) ;;
  ret (glfwCreateWindow_result env).

Definition glfwTerminate : Prog unit := emit Call_glfwTerminate.

Definition glfwMakeContextCurrent (win : Z) : Prog unit :=
  emit (Call_glfwMakeContextCurrent win).

Definition glewInit : Prog Z :=
  emit Call_glewInit ;; ret (glewInit_result env).

Definition glfwSetInputMode (win mode value : Z) : Prog unit :=
  emit (Call_glfwSetInputMode win mode value).

Definition glfwGetKey (win key : Z) : Prog Z :=
  fun w =>
    (Next (glfwGetKey_result env (key_polls w)),
     {| globals := globals w; key_polls := S (key_polls w);
        close_polls := close_polls w;
        log := log w ++ [mkEntry (Call_glfwGetKey win key) (globals w)] |}).

Definition glfwWindowShouldClose (win : Z) : Prog Z :=
  fun w =>
    (Next (glfwWindowShouldClose_result env (close_polls w)),
     {| globals := globals w; key_polls := key_polls w;
        close_polls := S (close_polls w);
        log := log w ++ [mkEntry (Call_glfwWindowShouldClose win) (globals w)] |}).

Definition glfwDestroyWindow (win : Z) : Prog unit :=
  emit (Call_glfwDestroyWindow win).

Definition nl : string := String (ascii_of_nat 10) EmptyString.

Definition fprintf_stderr (msg : string) : Prog unit :=
  emit (Call_fprintf_stderr msg).

(** ** The functions of [main.cpp] *)

(** [input_update]: the [||] of the source evaluates its right operand only
    when the left one is false. *)
Definition input_update : Prog unit :=
  win <- read_window ;
  k <- glfwGetKey win GLFW_KEY_ESCAPE ;
  stop <- (if k =? GLFW_PRESS then ret true
           else (c <- glfwWindowShouldClose win ; ret (negb (c =? 0)))) ;
  when stop (write_alive false).

Definition draw : Prog unit := emit Call_draw.

Definition explode : Prog unit :=
  win <- read_window ;
  glfwDestroyWindow win.

(** The [while (alive)] loop of [main].  [fuel] bounds the number of
    iterations; [Spin] is returned when the loop is still running after
    [fuel] iterations.  The [break] of the source leaves the loop, which is
    the [Next tt] produced by [explode]. *)
Fixpoint frame_loop (fuel : nat) (w : World) : Flow unit * World :=
  if alive (globals w) then
    match fuel with
    | O => (Spin, w)
    | S fuel' =>
        (input_update ;;
         a <- read_alive ;
         if a then draw ;; frame_loop fuel'
         else explode) w
    end
  else (Next tt, w).

Definition main (fuel : nat) : Prog unit :=
  write_glewExperimental true ;;
  ok <- glfwInit ;
  when (ok =? 0)
       (fprintf_stderr ("FAILED TO INITIALIZE GLFW!" ++ nl) ;;
        return_ (-1)) ;;
  glfwWindowHint GLFW_CONTEXT_VERSION_MAJOR 3 ;;
  glfwWindowHint GLFW_CONTEXT_VERSION_MINOR 3 ;;
  glfwWindowHint GLFW_OPENGL_FORWARD_COMPAT GL_TRUE ;;
  glfwWindowHint GLFW_OPENGL_PROFILE GLFW_OPENGL_CORE_PROFILE ;;
  p <- glfwCreateWindow 1280 720 "huskyTech2" NULL NULL ;
  write_window p ;;
  win <- read_window ;
  when (win =? NULL)
       (fprintf_stderr ("FAILED TO OPEN GLFW WINDOW!" ++ nl) ;;
        glfwTerminate ;;
        return_ (-1)) ;;
  win <- read_window ;
  glfwMakeContextCurrent win ;;
  write_glewExperimental true ;;
  r <- glewInit ;
  when (negb (r =? GLEW_OK))
       (fprintf_stderr ("FAILED TO INITIALIZE GLEW!" ++ nl) ;;
        return_ (-1)) ;;
  win <- read_window ;
  glfwSetInputMode win GLFW_STICKY_KEYS GL_TRUE ;;
  frame_loop fuel.

(** The status with which the process ends, or [None] while [main] is still
    in its loop after [fuel] iterations.  Control that reaches the closing
    brace of [main] returns 0. *)
Definition exit_status (fuel : nat) (g : Globals) : option Z :=
  match fst (main fuel (boot g)) with
  | Next _ => Some 0
  | Return z => Some z
  | Spin => None
  end.

Definition trace (fuel : nat) (g : Globals) : list Entry :=
  log (snd (main fuel (boot g))).

Definition final_globals (fuel : nat) (g : Globals) : Globals :=
  globals (snd (main fuel (boot g))).

End Program.

(** ** Observations on logs *)

Definition is_draw (c : Call) : bool :=
  match c with Call_draw => true | _ => false end.
Definition is_poll (c : Call) : bool :=
  match c with
  | Call_glfwGetKey _ _ | Call_glfwWindowShouldClose _ => true
  | _ => false
  end.
Definition is_terminate (c : Call) : bool :=
  match c with Call_glfwTerminate => true | _ => false end.
Definition is_destroy (c : Call) : bool :=
  match c with Call_glfwDestroyWindow _ => true | _ => false end.
Definition is_create (c : Call) : bool :=
  match c with Call_glfwCreateWindow _ _ _ _ _ => true | _ => false end.
Definition count_call (p : Call -> bool) (l : list Entry) : nat :=
  List.length (filter (fun e => p (call e)) l).

(** The exit condition as the [k]-th poll observes it. *)
Definition exit_requested (env : Env) (k : nat) : bool :=
  (glfwGetKey_result env k =? GLFW_PRESS)
  || negb (glfwWindowShouldClose_result env k =? 0).

(** The calls of [main] up to and including [glfwSetInputMode], on the path
    where the three initialisations succeed. *)
Definition lit (g : Globals) (p : Z) : Globals :=
  {| window := p; alive := alive g; glewExperimental := true |}.

Definition startup_log (g : Globals) (p : Z) : list Entry :=
  let g1 := lit g (window g) in
  [ mkEntry Call_glfwInit g1;
    mkEntry (Call_glfwWindowHint GLFW_CONTEXT_VERSION_MAJOR 3) g1;
    mkEntry (Call_glfwWindowHint GLFW_CONTEXT_VERSION_MINOR 3) g1;
    mkEntry (Call_glfwWindowHint GLFW_OPENGL_FORWARD_COMPAT GL_TRUE) g1;
    mkEntry (Call_glfwWindowHint GLFW_OPENGL_PROFILE GLFW_OPENGL_CORE_PROFILE) g1;
    mkEntry (Call_glfwCreateWindow 1280 720 "huskyTech2" NULL NULL) g1;
    mkEntry (Call_glfwMakeContextCurrent p) (lit g p);
    mkEntry Call_glewInit (lit g p);
    mkEntry (Call_glfwSetInputMode p GLFW_STICKY_KEYS GL_TRUE) (lit g p) ].

Definition ready (env : Env) (g : Globals) : World :=
  let p := glfwCreateWindow_result env in
  {| globals := lit g p; key_polls := 0; close_polls := 0;
     log := startup_log g p |}.

(** One iteration of the loop that does not see the exit condition. *)
Definition frame_log (g : Globals) : list Entry :=
  [ mkEntry (Call_glfwGetKey (window g) GLFW_KEY_ESCAPE) g;
    mkEntry (Call_glfwWindowShouldClose (window g)) g;
    mkEntry Call_draw g ].

Fixpoint frames_log (n : nat) (g : Globals) : list Entry :=
  match n with
  | O => []
  | S n' => frame_log g ++ frames_log n' g
  end.

Definition advance (n : nat) (w : World) : World :=
  {| globals := globals w;
     key_polls := key_polls w + n;
     close_polls := close_polls w + n;
     log := log w ++ frames_log n (globals w) |}.

(** The calls of the iteration that sees the exit condition. *)
Definition last_polls (env : Env) (k : nat) (g : Globals) : list Entry :=
  if glfwGetKey_result env k =? GLFW_PRESS
  then [ mkEntry (Call_glfwGetKey (window g) GLFW_KEY_ESCAPE) g ]
  else [ mkEntry (Call_glfwGetKey (window g) GLFW_KEY_ESCAPE) g;
         mkEntry (Call_glfwWindowShouldClose (window g)) g ].

Definition dead (g : Globals) : Globals :=
  {| window := window g; alive := false;
     glewExperimental := glewExperimental g |}.

Definition torn_down (env : Env) (w : World) : World :=
  let k := key_polls w in
  {| globals := dead (globals w);
     key_polls := S k;
     close_polls :=
       if glfwGetKey_result env k =? GLFW_PRESS
       then close_polls w else S (close_polls w);
     log := log w ++ last_polls env k (globals w)
              ++ [ mkEntry (Call_glfwDestroyWindow (window (globals w)))
                           (dead (globals w)) ] |}.

(** ** Logs in closed form *)

(** The three error paths, with the complete log of each. *)
Definition no_glfw_log (g : Globals) : list Entry :=
  let g1 := lit g (window g) in
  [ mkEntry Call_glfwInit g1;
    mkEntry (Call_fprintf_stderr ("FAILED TO INITIALIZE GLFW!" ++ nl)) g1 ].

Definition no_window_log (g : Globals) : list Entry :=
  let g1 := lit g (window g) in
  [ mkEntry Call_glfwInit g1;
    mkEntry (Call_glfwWindowHint GLFW_CONTEXT_VERSION_MAJOR 3) g1;
    mkEntry (Call_glfwWindowHint GLFW_CONTEXT_VERSION_MINOR 3) g1;
    mkEntry (Call_glfwWindowHint GLFW_OPENGL_FORWARD_COMPAT GL_TRUE) g1;
    mkEntry (Call_glfwWindowHint GLFW_OPENGL_PROFILE GLFW_OPENGL_CORE_PROFILE) g1;
    mkEntry (Call_glfwCreateWindow 1280 720 "huskyTech2" NULL NULL) g1;
    mkEntry (Call_fprintf_stderr ("FAILED TO OPEN GLFW WINDOW!" ++ nl))
            (lit g NULL);
    mkEntry Call_glfwTerminate (lit g NULL) ].

Definition no_glew_log (g : Globals) (p : Z) : list Entry :=
  let g1 := lit g (window g) in
  [ mkEntry Call_glfwInit g1;
    mkEntry (Call_glfwWindowHint GLFW_CONTEXT_VERSION_MAJOR 3) g1;
    mkEntry (Call_glfwWindowHint GLFW_CONTEXT_VERSION_MINOR 3) g1;
    mkEntry (Call_glfwWindowHint GLFW_OPENGL_FORWARD_COMPAT GL_TRUE) g1;
    mkEntry (Call_glfwWindowHint GLFW_OPENGL_PROFILE GLFW_OPENGL_CORE_PROFILE) g1;
    mkEntry (Call_glfwCreateWindow 1280 720 "huskyTech2" NULL NULL) g1;
    mkEntry (Call_glfwMakeContextCurrent p) (lit g p);
    mkEntry Call_glewInit (lit g p);
    mkEntry (Call_fprintf_stderr ("FAILED TO INITIALIZE GLEW!" ++ nl))
            (lit g p) ].

(** Among the first [fuel] polls, the first that observes the exit
    condition, if there is one. *)
Fixpoint first_exit (env : Env) (k fuel : nat) : option nat :=
  match fuel with
  | O => None
  | S fuel' =>
      if exit_requested env k then Some O
      else option_map S (first_exit env (S k) fuel')
  end.

(** The run ends with status 0 after exactly [d] entries into [draw], all
    of them before the one call of [glfwDestroyWindow] that ends the log. *)
Definition exits_after_draws (env : Env) (g : Globals) (fuel d : nat)
    : Prop :=
  exit_status env fuel g = Some 0 /\
  count_call is_draw (trace env fuel g) = d /\
  exists pre e,
    trace env fuel g = pre ++ [e] /\
    call e = Call_glfwDestroyWindow (glfwCreateWindow_result env) /\
    count_call is_draw pre = d /\
    count_call is_destroy pre = 0%nat.

(** The shapes a log of [main] can have: one per error path, one for a
    run that starts with the flag down, and two for the loop (still
    running, or left through [explode]). *)
Inductive Shape (env : Env) (g : Globals) : list Entry -> Prop :=
| Shape_no_glfw :
    glfwInit_result env = 0 ->
    Shape env g (no_glfw_log g)
| Shape_no_window :
    glfwInit_result env <> 0 ->
    glfwCreateWindow_result env = NULL ->
    Shape env g (no_window_log g)
| Shape_no_glew :
    glfwInit_result env <> 0 ->
    glfwCreateWindow_result env <> NULL ->
    glewInit_result env <> GLEW_OK ->
    Shape env g (no_glew_log g (glfwCreateWindow_result env))
| Shape_skipped :
    alive g = false ->
    Shape env g (startup_log g (glfwCreateWindow_result env))
| Shape_running (n : nat) :
    alive g = true ->
    Shape env g (startup_log g (glfwCreateWindow_result env)
                   ++ frames_log n (lit g (glfwCreateWindow_result env)))
| Shape_left (n : nat) :
    alive g = true ->
    Shape env g
      ((startup_log g (glfwCreateWindow_result env)
          ++ frames_log n (lit g (glfwCreateWindow_result env)))
         ++ last_polls env n (lit g (glfwCreateWindow_result env))
         ++ [ mkEntry (Call_glfwDestroyWindow (glfwCreateWindow_result env))
                      (dead (lit g (glfwCreateWindow_result env))) ]).

Definition live (e : Entry) : bool := alive (seen e).

Definition calm (e : Entry) : bool :=
  negb (alive (seen e)) && negb (is_draw (call e)) && negb (is_poll (call e)).

(** A log is settled when it splits into a part made while alive and a part
    made after, the latter without polls and draws. *)
Definition settled (l : list Entry) : Prop :=
  exists before after,
    l = before ++ after /\
    forallb live before = true /\
    forallb calm after = true.

(** What "shut down exactly once, and only after the window has been
    destroyed" asks of a log. *)
Definition shut_down_once_after_destroy (l : list Entry) : Prop :=
  count_call is_terminate l = 1%nat /\
  forall pre e post,
    l = pre ++ e :: post ->
    call e = Call_glfwTerminate ->
    (1 <= count_call is_destroy pre)%nat.

(** ** Sample environments *)

Definition env_idle : Env :=
  {| glfwInit_result := 1; glfwCreateWindow_result := 4096;
     glewInit_result := GLEW_OK;
     glfwGetKey_result := fun _ => GLFW_RELEASE;
     glfwWindowShouldClose_result := fun _ => 0 |}.

Definition env_no_glfw : Env :=
  {| glfwInit_result := 0; glfwCreateWindow_result := 4096;
     glewInit_result := GLEW_OK;
     glfwGetKey_result := fun _ => GLFW_RELEASE;
     glfwWindowShouldClose_result := fun _ => 0 |}.

Definition env_no_window : Env :=
  {| glfwInit_result := 1; glfwCreateWindow_result := NULL;
     glewInit_result := GLEW_OK;
     glfwGetKey_result := fun _ => GLFW_RELEASE;
     glfwWindowShouldClose_result := fun _ => 0 |}.

Definition env_no_glew : Env :=
  {| glfwInit_result := 1; glfwCreateWindow_result := 4096;
     glewInit_result := 1;
     glfwGetKey_result := fun _ => GLFW_RELEASE;
     glfwWindowShouldClose_result := fun _ => 0 |}.

(** The window system signals a close request from the first poll on. *)
Definition env_close_at_once : Env :=
  {| glfwInit_result := 1; glfwCreateWindow_result := 4096;
     glewInit_result := GLEW_OK;
     glfwGetKey_result := fun _ => GLFW_RELEASE;
     glfwWindowShouldClose_result := fun _ => 1 |}.

(** Escape is down at the fifth poll (index 4) and not before. *)
Definition env_escape_fifth : Env :=
  {| glfwInit_result := 1; glfwCreateWindow_result := 4096;
     glewInit_result := GLEW_OK;
     glfwGetKey_result :=
       fun k => if Nat.eqb k 4 then GLFW_PRESS else GLFW_RELEASE;
     glfwWindowShouldClose_result := fun _ => 0 |}.

(** The last entry of a run that sees a close request at its first poll. *)
Definition closing_entry : Entry :=
  mkEntry (Call_glfwDestroyWindow 4096) (dead (lit globals_h 4096)).

(** ** Further observations on runs *)

Definition is_report (c : Call) : bool :=
  match c with Call_fprintf_stderr _ => true | _ => false end.
Definition is_init (c : Call) : bool :=
  match c with Call_glfwInit => true | _ => false end.
Definition is_glew_init (c : Call) : bool :=
  match c with Call_glewInit => true | _ => false end.
Definition is_get_key (c : Call) : bool :=
  match c with Call_glfwGetKey _ _ => true | _ => false end.
Definition is_should_close (c : Call) : bool :=
  match c with Call_glfwWindowShouldClose _ => true | _ => false end.

(** The window pointer a call passes to GLFW, if it passes one. *)
Definition window_arg (c : Call) : option Z :=
  match c with
  | Call_glfwMakeContextCurrent win
  | Call_glfwSetInputMode win _ _
  | Call_glfwGetKey win _
  | Call_glfwWindowShouldClose win
  | Call_glfwDestroyWindow win => Some win
  | _ => None
  end.

(** One of the three guards of [main] takes its [return -1]. *)
Definition startup_failed (env : Env) : bool :=
  (glfwInit_result env =? 0)
  || (glfwCreateWindow_result env =? NULL)
  || negb (glewInit_result env =? GLEW_OK).

(** The paths through [main], each with the status it ends in ([None]
    while the loop is still running) and its log. *)
Inductive Path (env : Env) (g : Globals) (fuel : nat)
    : option Z -> list Entry -> Prop :=
| Path_no_glfw :
    glfwInit_result env = 0 ->
    Path env g fuel (Some (-1)) (no_glfw_log g)
| Path_no_window :
    glfwInit_result env <> 0 ->
    glfwCreateWindow_result env = NULL ->
    Path env g fuel (Some (-1)) (no_window_log g)
| Path_no_glew :
    glfwInit_result env <> 0 ->
    glfwCreateWindow_result env <> NULL ->
    glewInit_result env <> GLEW_OK ->
    Path env g fuel (Some (-1))
         (no_glew_log g (glfwCreateWindow_result env))
| Path_skipped :
    glfwInit_result env <> 0 ->
    glfwCreateWindow_result env <> NULL ->
    glewInit_result env = GLEW_OK ->
    alive g = false ->
    Path env g fuel (Some 0) (startup_log g (glfwCreateWindow_result env))
| Path_running :
    glfwInit_result env <> 0 ->
    glfwCreateWindow_result env <> NULL ->
    glewInit_result env = GLEW_OK ->
    alive g = true ->
    first_exit env 0 fuel = None ->
    Path env g fuel None
         (startup_log g (glfwCreateWindow_result env)
            ++ frames_log fuel (lit g (glfwCreateWindow_result env)))
| Path_left (n : nat) :
    glfwInit_result env <> 0 ->
    glfwCreateWindow_result env <> NULL ->
    glewInit_result env = GLEW_OK ->
    alive g = true ->
    first_exit env 0 fuel = Some n ->
    Path env g fuel (Some 0)
         ((startup_log g (glfwCreateWindow_result env)
             ++ frames_log n (lit g (glfwCreateWindow_result env)))
            ++ last_polls env n (lit g (glfwCreateWindow_result env))
            ++ [ mkEntry (Call_glfwDestroyWindow (glfwCreateWindow_result env))
                         (dead (lit g (glfwCreateWindow_result env))) ]).

(** What a log entry must satisfy when it hands a window to GLFW. *)
Definition passes_window (p : Z) (e : Entry) : bool :=
  match window_arg (call e) with
  | Some win => (win =? p) && (window (seen e) =? p)
  | None => true
  end.

(** The calls of a run that gets as far as [glewInit], up to that call. *)
Definition before_glewInit (g : Globals) (p : Z) : list Entry :=
  firstn 7 (startup_log g p).

(** The entries [input_update] adds to the log: the state of Escape on the
    program's window is asked first, the close flag only when Escape is not
    reported pressed. *)
Definition poll_entries (env : Env) (w : World) : list Entry :=
  if glfwGetKey_result env (key_polls w) =? GLFW_PRESS
  then [ mkEntry (Call_glfwGetKey (window (globals w)) GLFW_KEY_ESCAPE)
                 (globals w) ]
  else [ mkEntry (Call_glfwGetKey (window (globals w)) GLFW_KEY_ESCAPE)
                 (globals w);
         mkEntry (Call_glfwWindowShouldClose (window (globals w)))
                 (globals w) ].

(** A log entry that asks for a key asks for Escape. *)
Definition asks_escape (e : Entry) : bool :=
  match call e with
  | Call_glfwGetKey _ key => key =? GLFW_KEY_ESCAPE
  | _ => true
  end.

(** ** Basic facts *)

Ltac run_startup :=
  unfold main, bind, when, glfwInit, glfwCreateWindow, glewInit; cbn.

Lemma main_ready (env : Env) (fuel : nat) (g : Globals) :
  glfwInit_result env <> 0 ->
  glfwCreateWindow_result env <> NULL ->
  glewInit_result env = GLEW_OK ->
  main env fuel (boot g) = frame_loop env fuel (ready env g).
Proof.
  intros Hi Hw Hg. run_startup.
  apply Z.eqb_neq in Hi, Hw. rewrite Hi. cbn.
  rewrite Hw. cbn. rewrite Hg. reflexivity.
Qed.

Lemma main_no_glfw (env : Env) (fuel : nat) (g : Globals) :
  glfwInit_result env = 0 ->
  main env fuel (boot g) =
    (Return (-1),
     {| globals := lit g (window g); key_polls := 0; close_polls := 0;
        log := no_glfw_log g |}).
Proof.
  intros Hi. run_startup. rewrite Hi. reflexivity.
Qed.

Lemma main_no_window (env : Env) (fuel : nat) (g : Globals) :
  glfwInit_result env <> 0 ->
  glfwCreateWindow_result env = NULL ->
  main env fuel (boot g) =
    (Return (-1),
     {| globals := lit g NULL; key_polls := 0; close_polls := 0;
        log := no_window_log g |}).
Proof.
  intros Hi Hw. run_startup.
  apply Z.eqb_neq in Hi. rewrite Hi. cbn. rewrite Hw. reflexivity.
Qed.

Lemma main_no_glew (env : Env) (fuel : nat) (g : Globals) :
  glfwInit_result env <> 0 ->
  glfwCreateWindow_result env <> NULL ->
  glewInit_result env <> GLEW_OK ->
  main env fuel (boot g) =
    (Return (-1),
     {| globals := lit g (glfwCreateWindow_result env);
        key_polls := 0; close_polls := 0;
        log := no_glew_log g (glfwCreateWindow_result env) |}).
Proof.
  intros Hi Hw Hg. run_startup.
  apply Z.eqb_neq in Hi, Hw, Hg. rewrite Hi. cbn.
  rewrite Hw. cbn. rewrite Hg. reflexivity.
Qed.

(** *** One iteration of the loop *)

Lemma frame_loop_dead (env : Env) (fuel : nat) (w : World) :
  alive (globals w) = false -> frame_loop env fuel w = (Next tt, w).
Proof.
  intros Ha. destruct fuel; cbn; rewrite Ha; reflexivity.
Qed.

Lemma frame_loop_spin (env : Env) (w : World) :
  alive (globals w) = true -> frame_loop env 0 w = (Spin, w).
Proof.
  intros Ha. cbn. rewrite Ha. reflexivity.
Qed.

Lemma frame_loop_continue (env : Env) (fuel : nat) (w : World) :
  alive (globals w) = true ->
  key_polls w = close_polls w ->
  exit_requested env (key_polls w) = false ->
  frame_loop env (S fuel) w = frame_loop env fuel (advance 1 w).
Proof.
  intros Ha Hk Hx. unfold exit_requested in Hx.
  apply orb_false_iff in Hx. destruct Hx as [Hkey Hclose].
  apply negb_false_iff in Hclose.
  cbn [frame_loop]. rewrite Ha.
  unfold input_update, bind, read_window, glfwGetKey, when. cbn.
  rewrite Hkey. cbn. rewrite <- Hk, Hclose. cbn. rewrite Ha. cbn.
  f_equal. unfold advance. cbn. rewrite <- Hk.
  rewrite !Nat.add_1_r, <- !app_assoc. reflexivity.
Qed.

Lemma frame_loop_exit (env : Env) (fuel : nat) (w : World) :
  alive (globals w) = true ->
  key_polls w = close_polls w ->
  exit_requested env (key_polls w) = true ->
  frame_loop env (S fuel) w = (Next tt, torn_down env w).
Proof.
  intros Ha Hk Hx. unfold exit_requested in Hx.
  cbn [frame_loop]. rewrite Ha.
  unfold input_update, explode, bind, read_window, glfwGetKey, when,
    glfwDestroyWindow, emit, torn_down, last_polls, dead. cbn.
  destruct (glfwGetKey_result env (key_polls w) =? GLFW_PRESS) eqn:Hkey; cbn.
  - rewrite <- app_assoc. reflexivity.
  - cbn in Hx. rewrite <- Hk in *. rewrite Hx. cbn.
    rewrite <- !app_assoc. reflexivity.
Qed.

(** *** Many iterations *)

Lemma advance_S (n : nat) (w : World) :
  advance n (advance 1 w) = advance (S n) w.
Proof.
  unfold advance. cbn. rewrite <- !app_assoc.
  f_equal; lia.
Qed.

Lemma frame_loop_run (env : Env) (n : nat) :
  forall (fuel : nat) (w : World),
    alive (globals w) = true ->
    key_polls w = close_polls w ->
    (forall i, (i < n)%nat -> exit_requested env (key_polls w + i) = false) ->
    frame_loop env (n + fuel) w = frame_loop env fuel (advance n w).
Proof.
  induction n as [|n IH]; intros fuel w Ha Hk Hq.
  - unfold advance. cbn. rewrite app_nil_r, !Nat.add_0_r.
    destruct w; reflexivity.
  - cbn [Nat.add]. rewrite frame_loop_continue; trivial.
    + rewrite IH.
      * now rewrite advance_S.
      * exact Ha.
      * cbn. now rewrite Hk.
      * intros i Hi. cbn. replace (key_polls w + 1 + i)%nat
          with (key_polls w + S i)%nat by lia. apply Hq. lia.
    + rewrite <- (Nat.add_0_r (key_polls w)). apply Hq. lia.
Qed.

(** The loop never leaves an alive world while the exit condition stays
    unobserved: after [fuel] iterations it is still running. *)
Lemma frame_loop_idle (env : Env) (fuel : nat) (w : World) :
  alive (globals w) = true ->
  key_polls w = close_polls w ->
  (forall i, (i < fuel)%nat -> exit_requested env (key_polls w + i) = false) ->
  frame_loop env fuel w = (Spin, advance fuel w).
Proof.
  intros Ha Hk Hq.
  rewrite <- (Nat.add_0_r fuel) at 1.
  rewrite frame_loop_run by assumption.
  now apply frame_loop_spin.
Qed.

(** The loop leaves at the first poll that observes the exit condition. *)
Lemma frame_loop_leaves (env : Env) (n fuel : nat) (w : World) :
  alive (globals w) = true ->
  key_polls w = close_polls w ->
  (forall i, (i < n)%nat -> exit_requested env (key_polls w + i) = false) ->
  exit_requested env (key_polls w + n) = true ->
  (n < fuel)%nat ->
  frame_loop env fuel w = (Next tt, torn_down env (advance n w)).
Proof.
  intros Ha Hk Hq Hx Hf.
  replace fuel with (n + S (fuel - S n))%nat by lia.
  rewrite frame_loop_run by assumption.
  apply frame_loop_exit; cbn; trivial. now rewrite Hk.
Qed.

Lemma first_exit_none (env : Env) (fuel : nat) :
  forall k, first_exit env k fuel = None ->
    forall i, (i < fuel)%nat -> exit_requested env (k + i) = false.
Proof.
  induction fuel as [|fuel IH]; intros k Hn i Hi; [lia|].
  cbn in Hn. destruct (exit_requested env k) eqn:Hx; [discriminate|].
  destruct (first_exit env (S k) fuel) eqn:Hf; [discriminate|].
  destruct i as [|i].
  - now rewrite Nat.add_0_r.
  - replace (k + S i)%nat with (S k + i)%nat by lia. apply IH; [exact Hf|lia].
Qed.

Lemma first_exit_some (env : Env) (fuel : nat) :
  forall k n, first_exit env k fuel = Some n ->
    (n < fuel)%nat /\ exit_requested env (k + n) = true /\
    forall i, (i < n)%nat -> exit_requested env (k + i) = false.
Proof.
  induction fuel as [|fuel IH]; intros k n Hs; [discriminate|].
  cbn in Hs. destruct (exit_requested env k) eqn:Hx.
  - injection Hs as <-. rewrite Nat.add_0_r. repeat split; [lia|exact Hx|lia].
  - destruct (first_exit env (S k) fuel) as [m|] eqn:Hf; [|discriminate].
    cbn in Hs. injection Hs as <-.
    destruct (IH _ _ Hf) as (Hlt & Hm & Hbefore).
    repeat split.
    + lia.
    + replace (k + S m)%nat with (S k + m)%nat by lia. exact Hm.
    + intros [|i] Hi.
      * now rewrite Nat.add_0_r.
      * replace (k + S i)%nat with (S k + i)%nat by lia. apply Hbefore. lia.
Qed.

Lemma first_exit_S (env : Env) (k fuel : nat) :
  first_exit env k (S fuel) =
    if exit_requested env k then Some 0%nat
    else option_map S (first_exit env (S k) fuel).
Proof. reflexivity. Qed.

Lemma first_exit_found (env : Env) (n : nat) :
  forall k, exit_requested env (k + n) = true ->
    exists m, first_exit env k (S n) = Some m /\ (m <= n)%nat.
Proof.
  induction n as [|n IH]; intros k Hx.
  - rewrite Nat.add_0_r in Hx. cbn. rewrite Hx. exists 0%nat. split; [reflexivity|lia].
  - rewrite first_exit_S. destruct (exit_requested env k) eqn:Hk.
    + exists 0%nat. split; [reflexivity|lia].
    + replace (k + S n)%nat with (S k + n)%nat in Hx by lia.
      destruct (IH _ Hx) as (m & Hm & Hle).
      rewrite Hm. exists (S m). split; [reflexivity|lia].
Qed.

(** The loop in closed form. *)
Lemma frame_loop_closed (env : Env) (fuel : nat) (w : World) :
  alive (globals w) = true ->
  key_polls w = close_polls w ->
  frame_loop env fuel w =
    match first_exit env (key_polls w) fuel with
    | Some n => (Next tt, torn_down env (advance n w))
    | None => (Spin, advance fuel w)
    end.
Proof.
  intros Ha Hk.
  destruct (first_exit env (key_polls w) fuel) as [n|] eqn:Hf.
  - destruct (first_exit_some _ _ _ _ Hf) as (Hlt & Hx & Hq).
    now apply frame_loop_leaves.
  - apply frame_loop_idle; trivial. now apply first_exit_none.
Qed.

(** *** Counting *)

Lemma count_call_app (p : Call -> bool) (l1 l2 : list Entry) :
  count_call p (l1 ++ l2) = (count_call p l1 + count_call p l2)%nat.
Proof.
  unfold count_call. now rewrite filter_app, length_app.
Qed.

Lemma count_draw_frames (n : nat) (g : Globals) :
  count_call is_draw (frames_log n g) = n.
Proof.
  induction n as [|n IH]; [reflexivity|].
  cbn [frames_log]. rewrite count_call_app, IH. reflexivity.
Qed.

Lemma count_frames_other (p : Call -> bool) (n : nat) (g : Globals) :
  p Call_draw = false ->
  (forall win key, p (Call_glfwGetKey win key) = false) ->
  (forall win, p (Call_glfwWindowShouldClose win) = false) ->
  count_call p (frames_log n g) = 0%nat.
Proof.
  intros Hd Hk Hc.
  induction n as [|n IH]; [reflexivity|].
  cbn [frames_log]. rewrite count_call_app, IH.
  unfold count_call, frame_log. cbn. now rewrite Hd, Hk, Hc.
Qed.

(** *** [main] in closed form on the path that reaches the loop *)

Lemma exit_requested_iff (env : Env) (k : nat) :
  exit_requested env k = true <->
  glfwGetKey_result env k = GLFW_PRESS \/
  glfwWindowShouldClose_result env k <> 0.
Proof.
  unfold exit_requested.
  rewrite orb_true_iff, negb_true_iff, Z.eqb_eq, Z.eqb_neq. reflexivity.
Qed.

Lemma main_closed (env : Env) (fuel : nat) (g : Globals) :
  glfwInit_result env <> 0 ->
  glfwCreateWindow_result env <> NULL ->
  glewInit_result env = GLEW_OK ->
  alive g = true ->
  main env fuel (boot g) =
    match first_exit env 0 fuel with
    | Some n => (Next tt, torn_down env (advance n (ready env g)))
    | None => (Spin, advance fuel (ready env g))
    end.
Proof.
  intros Hi Hw Hg Ha. rewrite main_ready by assumption.
  now apply frame_loop_closed.
Qed.

Lemma main_skips_loop (env : Env) (fuel : nat) (g : Globals) :
  glfwInit_result env <> 0 ->
  glfwCreateWindow_result env <> NULL ->
  glewInit_result env = GLEW_OK ->
  alive g = false ->
  main env fuel (boot g) = (Next tt, ready env g).
Proof.
  intros Hi Hw Hg Ha. rewrite main_ready by assumption.
  now apply frame_loop_dead.
Qed.

(** ** Error paths *)

(** C6: when [glfwInit] fails, [main] ends with a status other than 0 and
    [glfwCreateWindow] is never called. *)
Theorem init_failure_exits_before_window
    (env : Env) (fuel : nat) (g : Globals) :
  glfwInit_result env = 0 ->
  (exists z, exit_status env fuel g = Some z /\ z <> 0) /\
  count_call is_create (trace env fuel g) = 0%nat /\
  (forall e, In e (trace env fuel g) -> is_create (call e) = false).
Proof.
  intros Hi. unfold exit_status, trace.
  rewrite (main_no_glfw env fuel g Hi). cbn [fst snd log].
  split; [exists (-1); split; [reflexivity|lia]|].
  split; [reflexivity|].
  intros e [<-|[<-|[]]]; reflexivity.
Qed.

Lemma init_failure_exits_before_window_witness :
  glfwInit_result env_no_glfw = 0 /\
  ((exists z, exit_status env_no_glfw 3 globals_h = Some z /\ z <> 0) /\
   count_call is_create (trace env_no_glfw 3 globals_h) = 0%nat /\
   (forall e, In e (trace env_no_glfw 3 globals_h) ->
              is_create (call e) = false)).
Proof.
  split; [reflexivity|].
  apply (init_failure_exits_before_window env_no_glfw 3 globals_h).
  reflexivity.
Defined.

(** C7: when [glfwCreateWindow] returns NULL, [glfwTerminate] is called
    before [main] returns: it is the last call of the run, made once, and
    the status is -1. *)
Theorem window_failure_shuts_down (env : Env) (fuel : nat) (g : Globals) :
  glfwInit_result env <> 0 ->
  glfwCreateWindow_result env = NULL ->
  exit_status env fuel g = Some (-1) /\
  (exists pre e, trace env fuel g = pre ++ [e] /\
                 call e = Call_glfwTerminate) /\
  count_call is_terminate (trace env fuel g) = 1%nat.
Proof.
  intros Hi Hw. unfold exit_status, trace.
  rewrite (main_no_window env fuel g Hi Hw). cbn [fst snd log].
  split; [reflexivity|]. split; [|reflexivity].
  exists (removelast (no_window_log g)), (mkEntry Call_glfwTerminate (lit g NULL)).
  split; reflexivity.
Qed.

Lemma window_failure_shuts_down_witness :
  glfwInit_result env_no_window <> 0 /\
  glfwCreateWindow_result env_no_window = NULL /\
  (exit_status env_no_window 3 globals_h = Some (-1) /\
   (exists pre e, trace env_no_window 3 globals_h = pre ++ [e] /\
                  call e = Call_glfwTerminate) /\
   count_call is_terminate (trace env_no_window 3 globals_h) = 1%nat).
Proof.
  split; [discriminate|]. split; [reflexivity|].
  apply (window_failure_shuts_down env_no_window 3 globals_h);
    [discriminate|reflexivity].
Defined.

(** C8: when [glewInit] does not return [GLEW_OK], the failure is written
    to standard error as the last call of the run, [main] returns -1, the
    loop is never entered (no poll, no draw), and neither
    [glfwDestroyWindow] nor [glfwTerminate] is called. *)
Theorem loader_failure_exits_without_teardown
    (env : Env) (fuel : nat) (g : Globals) :
  glfwInit_result env <> 0 ->
  glfwCreateWindow_result env <> NULL ->
  glewInit_result env <> GLEW_OK ->
  exit_status env fuel g = Some (-1) /\
  (exists pre e, trace env fuel g = pre ++ [e] /\
     call e = Call_fprintf_stderr ("FAILED TO INITIALIZE GLEW!" ++ nl)) /\
  count_call is_poll (trace env fuel g) = 0%nat /\
  count_call is_draw (trace env fuel g) = 0%nat /\
  count_call is_destroy (trace env fuel g) = 0%nat /\
  count_call is_terminate (trace env fuel g) = 0%nat.
Proof.
  intros Hi Hw Hg. unfold exit_status, trace.
  rewrite (main_no_glew env fuel g Hi Hw Hg). cbn [fst snd log].
  split; [reflexivity|]. split; [|repeat split; reflexivity].
  exists (removelast (no_glew_log g (glfwCreateWindow_result env))).
  eexists. split; reflexivity.
Qed.

Lemma loader_failure_exits_without_teardown_witness :
  glfwInit_result env_no_glew <> 0 /\
  glfwCreateWindow_result env_no_glew <> NULL /\
  glewInit_result env_no_glew <> GLEW_OK /\
  (exit_status env_no_glew 3 globals_h = Some (-1) /\
   (exists pre e, trace env_no_glew 3 globals_h = pre ++ [e] /\
      call e = Call_fprintf_stderr ("FAILED TO INITIALIZE GLEW!" ++ nl)) /\
   count_call is_poll (trace env_no_glew 3 globals_h) = 0%nat /\
   count_call is_draw (trace env_no_glew 3 globals_h) = 0%nat /\
   count_call is_destroy (trace env_no_glew 3 globals_h) = 0%nat /\
   count_call is_terminate (trace env_no_glew 3 globals_h) = 0%nat).
Proof.
  split; [discriminate|]. split; [discriminate|]. split; [discriminate|].
  apply (loader_failure_exits_without_teardown env_no_glew 3 globals_h);
    discriminate.
Defined.

(** ** The exit status *)

Lemma exit_status_ready (env : Env) (fuel : nat) (g : Globals) :
  glfwInit_result env <> 0 ->
  glfwCreateWindow_result env <> NULL ->
  glewInit_result env = GLEW_OK ->
  exit_status env fuel g =
    if alive g
    then match first_exit env 0 fuel with
         | Some _ => Some 0
         | None => None
         end
    else Some 0.
Proof.
  intros Hi Hw Hg. unfold exit_status.
  destruct (alive g) eqn:Ha.
  - rewrite main_closed by assumption.
    now destruct (first_exit env 0 fuel).
  - now rewrite main_skips_loop.
Qed.

Lemma first_exit_within (env : Env) (k fuel : nat) :
  exit_requested env k = true -> (k < fuel)%nat ->
  exists n, first_exit env 0 fuel = Some n.
Proof.
  intros Hx Hlt.
  destruct (first_exit env 0 fuel) as [n|] eqn:Hf; [now exists n|].
  pose proof (first_exit_none _ _ _ Hf k Hlt) as Hno.
  cbn in Hno. congruence.
Qed.

(** C5: [main] returns -1 when [glfwInit] fails, when [glfwCreateWindow]
    returns NULL and when [glewInit] fails; when all three succeed the only
    status it can return is 0, and it does return 0 once a poll has observed
    the exit condition. *)
Theorem exit_codes (env : Env) (g : Globals) :
  (glfwInit_result env = 0 ->
   forall fuel, exit_status env fuel g = Some (-1)) /\
  (glfwInit_result env <> 0 -> glfwCreateWindow_result env = NULL ->
   forall fuel, exit_status env fuel g = Some (-1)) /\
  (glfwInit_result env <> 0 -> glfwCreateWindow_result env <> NULL ->
   glewInit_result env <> GLEW_OK ->
   forall fuel, exit_status env fuel g = Some (-1)) /\
  (glfwInit_result env <> 0 -> glfwCreateWindow_result env <> NULL ->
   glewInit_result env = GLEW_OK ->
   (forall fuel z, exit_status env fuel g = Some z -> z = 0) /\
   (forall k fuel, exit_requested env k = true -> (k < fuel)%nat ->
                   exit_status env fuel g = Some 0)).
Proof.
  repeat split.
  - intros Hi fuel. unfold exit_status. now rewrite main_no_glfw.
  - intros Hi Hw fuel. unfold exit_status. now rewrite main_no_window.
  - intros Hi Hw Hg fuel. unfold exit_status. now rewrite main_no_glew.
  - intros fuel z. rewrite exit_status_ready by assumption.
    destruct (alive g); [destruct (first_exit env 0 fuel)|]; congruence.
  - intros k fuel Hx Hlt. rewrite exit_status_ready by assumption.
    destruct (alive g); [|reflexivity].
    destruct (first_exit_within env k fuel Hx Hlt) as [n ->]. reflexivity.
Qed.

Lemma exit_codes_witness :
  exit_status env_no_glfw 2 globals_h = Some (-1) /\
  exit_status env_no_window 2 globals_h = Some (-1) /\
  exit_status env_no_glew 2 globals_h = Some (-1) /\
  exit_status env_escape_fifth 5 globals_h = Some 0.
Proof.
  split; [|split; [|split]].
  - apply (proj1 (exit_codes env_no_glfw globals_h)). reflexivity.
  - apply (proj1 (proj2 (exit_codes env_no_window globals_h)));
      [discriminate|reflexivity].
  - apply (proj1 (proj2 (proj2 (exit_codes env_no_glew globals_h))));
      discriminate.
  - apply (proj2 (proj2 (proj2 (proj2 (exit_codes env_escape_fifth globals_h)))
                   ltac:(discriminate) ltac:(discriminate) eq_refl) 4%nat);
      [reflexivity|lia].
Defined.

(** ** The input poll *)

Lemma input_update_globals (env : Env) (w : World) :
  input_update env w =
    (Next tt,
     {| globals :=
          if (glfwGetKey_result env (key_polls w) =? GLFW_PRESS)
             || negb (glfwWindowShouldClose_result env (close_polls w) =? 0)
          then dead (globals w) else globals w;
        key_polls := S (key_polls w);
        close_polls :=
          if glfwGetKey_result env (key_polls w) =? GLFW_PRESS
          then close_polls w else S (close_polls w);
        log := log w ++
          if glfwGetKey_result env (key_polls w) =? GLFW_PRESS
          then [ mkEntry (Call_glfwGetKey (window (globals w)) GLFW_KEY_ESCAPE)
                         (globals w) ]
          else [ mkEntry (Call_glfwGetKey (window (globals w)) GLFW_KEY_ESCAPE)
                         (globals w);
                 mkEntry (Call_glfwWindowShouldClose (window (globals w)))
                         (globals w) ] |}).
Proof.
  unfold input_update, bind, read_window, glfwGetKey, when. cbn.
  destruct (glfwGetKey_result env (key_polls w) =? GLFW_PRESS); cbn.
  - reflexivity.
  - destruct (glfwWindowShouldClose_result env (close_polls w) =? 0); cbn;
      rewrite <- app_assoc; reflexivity.
Qed.

(** C9: [input_update] returns normally and leaves the window pointer and
    [glewExperimental] as they were; the globals after the call are either
    the globals before it, or the alive flag was true and is now false with
    nothing else changed.  A false flag stays false. *)
Theorem input_update_touches_only_alive (env : Env) (w : World) :
  fst (input_update env w) = Next tt /\
  window (globals (snd (input_update env w))) = window (globals w) /\
  glewExperimental (globals (snd (input_update env w))) =
    glewExperimental (globals w) /\
  (globals (snd (input_update env w)) = globals w \/
   (alive (globals w) = true /\
    globals (snd (input_update env w)) = dead (globals w))) /\
  (alive (globals w) = false ->
   alive (globals (snd (input_update env w))) = false).
Proof.
  rewrite input_update_globals. cbn [fst snd globals].
  destruct (_ || _); cbn.
  - repeat split; trivial.
    destruct (globals w) as [p [|] x]; cbn; [right|left]; auto.
  - repeat split; auto.
Qed.

Lemma input_update_touches_only_alive_witness :
  alive (globals (boot (dead globals_h))) = false /\
  alive (globals (snd (input_update env_idle (boot (dead globals_h))))) = false.
Proof.
  split; [reflexivity|].
  exact (proj2 (proj2 (proj2 (proj2
           (input_update_touches_only_alive env_idle
              (boot (dead globals_h))))))
           eq_refl).
Defined.

Lemma draw_globals (w : World) : globals (snd (draw w)) = globals w.
Proof. reflexivity. Qed.

Lemma explode_globals (w : World) : globals (snd (explode w)) = globals w.
Proof. reflexivity. Qed.

Lemma final_alive_false (env : Env) (fuel : nat) (g : Globals) :
  alive g = true ->
  alive (final_globals env fuel g) = false ->
  exists k, (k < fuel)%nat /\ exit_requested env k = true /\
            forall i, (i < k)%nat -> exit_requested env i = false.
Proof.
  intros Ha Hd. unfold final_globals in Hd.
  destruct (Z.eq_dec (glfwInit_result env) 0) as [Hi|Hi].
  { rewrite main_no_glfw in Hd by assumption. cbn in Hd. congruence. }
  destruct (Z.eq_dec (glfwCreateWindow_result env) NULL) as [Hw|Hw].
  { rewrite main_no_window in Hd by assumption. cbn in Hd. congruence. }
  destruct (Z.eq_dec (glewInit_result env) GLEW_OK) as [Hg|Hg].
  2:{ rewrite main_no_glew in Hd by assumption. cbn in Hd. congruence. }
  rewrite main_closed in Hd by assumption.
  destruct (first_exit env 0 fuel) as [n|] eqn:Hf.
  - exists n. now apply (first_exit_some env fuel 0 n).
  - cbn in Hd. congruence.
Qed.

(** ** The frame loop *)

Section Started.
Variable env : Env.
Variable g : Globals.
Hypothesis glfw_up : glfwInit_result env <> 0.
Hypothesis window_up : glfwCreateWindow_result env <> NULL.
Hypothesis glew_up : glewInit_result env = GLEW_OK.
Hypothesis starts_alive : alive g = true.

Lemma exit_at_iteration (n fuel : nat) :
  exit_requested env n = true ->
  (forall i, (i < n)%nat -> exit_requested env i = false) ->
  (n < fuel)%nat ->
  exits_after_draws env g fuel n.
Proof.
  intros Hx Hq Hlt. unfold exits_after_draws, exit_status, trace.
  rewrite main_ready by assumption.
  rewrite (frame_loop_leaves env n fuel (ready env g)); trivial.
  cbn [fst snd log torn_down advance ready globals key_polls Nat.add].
  set (p := glfwCreateWindow_result env).
  assert (Hpre : forall q, q Call_draw = is_draw Call_draw ->
            (forall win key, q (Call_glfwGetKey win key) = false) ->
            (forall win, q (Call_glfwWindowShouldClose win) = false) ->
            count_call q (startup_log g p) = 0%nat ->
            count_call q
              ((startup_log g p ++ frames_log n (lit g p))
                 ++ last_polls env n (lit g p)) =
            count_call q (frames_log n (lit g p))).
  { intros q Hd Hk Hc Hs. rewrite !count_call_app, Hs.
    unfold last_polls, count_call at 2.
    destruct (_ =? _); cbn; rewrite ?Hk, ?Hc; cbn; lia. }
  split; [reflexivity|]. split.
  - rewrite app_assoc, count_call_app, Hpre; try reflexivity.
    rewrite count_draw_frames. cbn. lia.
  - eexists. eexists. split; [apply app_assoc|].
    split; [reflexivity|]. split.
    + rewrite Hpre; try reflexivity. apply count_draw_frames.
    + rewrite !count_call_app. rewrite count_frames_other by reflexivity.
      unfold last_polls. now destruct (_ =? _).
Qed.

(** C3: if the exit condition is first observed by the poll of iteration
    [n] (counting from 1), [draw] is entered exactly [n - 1] times, all
    before the call of [glfwDestroyWindow] that ends the run, and [main]
    returns 0.  In particular a close request at the first poll gives no
    [draw] at all, and Escape at the fifth poll gives four. *)
Theorem draws_until_exit :
  (forall n fuel,
     (1 <= n)%nat ->
     exit_requested env (n - 1) = true ->
     (forall i, (i < n - 1)%nat -> exit_requested env i = false) ->
     (n <= fuel)%nat ->
     exits_after_draws env g fuel (n - 1)) /\
  (forall fuel,
     glfwWindowShouldClose_result env 0 <> 0 ->
     (1 <= fuel)%nat ->
     exits_after_draws env g fuel 0) /\
  (forall fuel,
     glfwGetKey_result env 4 = GLFW_PRESS ->
     (forall i, (i < 4)%nat ->
        glfwGetKey_result env i <> GLFW_PRESS /\
        glfwWindowShouldClose_result env i = 0) ->
     (5 <= fuel)%nat ->
     exits_after_draws env g fuel 4).
Proof.
  split; [|split].
  - intros n fuel Hn Hx Hq Hf. apply exit_at_iteration; trivial. lia.
  - intros fuel Hc Hf. apply exit_at_iteration; [|lia|lia].
    apply exit_requested_iff. now right.
  - intros fuel Hk Hq Hf. apply exit_at_iteration; [| |lia].
    + apply exit_requested_iff. now left.
    + intros i Hi. destruct (Hq i Hi) as [Hnk Hnc].
      destruct (exit_requested env i) eqn:Hx; [|reflexivity].
      apply exit_requested_iff in Hx. tauto.
Qed.

Lemma first_exit_never (k fuel : nat) :
  (forall n, exit_requested env n = false) ->
  first_exit env k fuel = None.
Proof.
  intros Hno. destruct (first_exit env k fuel) as [n|] eqn:Hf; [|reflexivity].
  destruct (first_exit_some _ _ _ _ Hf) as (_ & Hx & _).
  rewrite Hno in Hx. discriminate.
Qed.

(** C10: from an alive state the loop ends for some number of iterations
    exactly when one of its polls observes the exit condition, and so does
    [main]; when no poll ever observes it, [main] has not returned after any
    number of iterations, each of which has entered [draw] once. *)
Theorem loop_ends_iff_exit_observed :
  (forall w, alive (globals w) = true -> key_polls w = close_polls w ->
     ((exists fuel, fst (frame_loop env fuel w) <> Spin) <->
      (exists n, exit_requested env (key_polls w + n) = true))) /\
  ((exists fuel z, exit_status env fuel g = Some z) <->
   (exists n, exit_requested env n = true)) /\
  ((forall n, exit_requested env n = false) ->
   forall fuel,
     exit_status env fuel g = None /\
     fst (frame_loop env fuel (ready env g)) = Spin /\
     count_call is_draw (trace env fuel g) = fuel).
Proof.
  split; [|split].
  - intros w Ha Hk. split.
    + intros [fuel Hf]. rewrite frame_loop_closed in Hf by assumption.
      destruct (first_exit env (key_polls w) fuel) as [n|] eqn:Hfe.
      * exists n. now apply (first_exit_some env fuel).
      * now elim Hf.
    + intros [n Hx]. exists (S n). rewrite frame_loop_closed by assumption.
      destruct (first_exit_found env n _ Hx) as (m & -> & _). discriminate.
  - split.
    + intros (fuel & z & Hz). rewrite exit_status_ready in Hz by assumption.
      rewrite starts_alive in Hz.
      destruct (first_exit env 0 fuel) as [n|] eqn:Hfe; [|discriminate].
      exists n. now apply (first_exit_some env fuel 0 n).
    + intros [n Hx]. exists (S n), 0.
      rewrite exit_status_ready, starts_alive by assumption.
      destruct (first_exit_found env n 0%nat Hx) as (m & -> & _). reflexivity.
  - intros Hno fuel.
    pose proof (first_exit_never 0 fuel Hno) as Hfe.
    split; [|split].
    + rewrite exit_status_ready, starts_alive, Hfe by assumption. reflexivity.
    + rewrite frame_loop_closed by (cbn; auto). cbn [ready key_polls].
      now rewrite Hfe.
    + unfold trace. rewrite main_closed, Hfe by assumption.
      cbn [snd log advance ready globals].
      rewrite count_call_app, count_draw_frames. reflexivity.
Qed.

End Started.

Lemma draws_until_exit_witness :
  glfwInit_result env_escape_fifth <> 0 /\
  glfwCreateWindow_result env_escape_fifth <> NULL /\
  glewInit_result env_escape_fifth = GLEW_OK /\
  alive globals_h = true /\
  exit_requested env_escape_fifth (5 - 1) = true /\
  (forall i, (i < 5 - 1)%nat -> exit_requested env_escape_fifth i = false) /\
  exits_after_draws env_escape_fifth globals_h 5 (5 - 1).
Proof.
  assert (Hq : forall i, (i < 5 - 1)%nat ->
                 exit_requested env_escape_fifth i = false).
  { intros i Hi.
    destruct i as [|[|[|[|i]]]]; [reflexivity..|cbn in Hi; lia]. }
  split; [discriminate|]. split; [discriminate|]. split; [reflexivity|].
  split; [reflexivity|]. split; [reflexivity|]. split; [exact Hq|].
  exact (proj1 (draws_until_exit env_escape_fifth globals_h
                  ltac:(discriminate) ltac:(discriminate) eq_refl eq_refl)
               5%nat 5%nat (le_S _ _ (le_S _ _ (le_S _ _ (le_S _ _ (le_n 1)))))
               eq_refl Hq (le_n 5)).
Defined.

Lemma loop_ends_iff_exit_observed_witness :
  glfwInit_result env_idle <> 0 /\
  glfwCreateWindow_result env_idle <> NULL /\
  glewInit_result env_idle = GLEW_OK /\
  alive globals_h = true /\
  (forall n, exit_requested env_idle n = false) /\
  exit_status env_idle 7 globals_h = None /\
  fst (frame_loop env_idle 7 (ready env_idle globals_h)) = Spin /\
  count_call is_draw (trace env_idle 7 globals_h) = 7%nat.
Proof.
  split; [discriminate|]. split; [discriminate|]. split; [reflexivity|].
  split; [reflexivity|]. split; [reflexivity|].
  exact (proj2 (proj2 (loop_ends_iff_exit_observed env_idle globals_h
                  ltac:(discriminate) ltac:(discriminate) eq_refl eq_refl))
               (fun n => eq_refl) 7%nat).
Defined.

(** ** The log of a whole run *)

Lemma trace_ready_alive (env : Env) (fuel : nat) (g : Globals) :
  glfwInit_result env <> 0 ->
  glfwCreateWindow_result env <> NULL ->
  glewInit_result env = GLEW_OK ->
  alive g = true ->
  trace env fuel g =
    let p := glfwCreateWindow_result env in
    match first_exit env 0 fuel with
    | Some n =>
        (startup_log g p ++ frames_log n (lit g p))
          ++ last_polls env n (lit g p)
          ++ [ mkEntry (Call_glfwDestroyWindow p) (dead (lit g p)) ]
    | None => startup_log g p ++ frames_log fuel (lit g p)
    end.
Proof.
  intros Hi Hw Hg Ha. unfold trace. rewrite main_closed by assumption.
  now destruct (first_exit env 0 fuel).
Qed.

Lemma trace_shape (env : Env) (fuel : nat) (g : Globals) :
  Shape env g (trace env fuel g).
Proof.
  destruct (Z.eq_dec (glfwInit_result env) 0) as [Hi|Hi].
  { unfold trace. rewrite main_no_glfw by assumption. now constructor. }
  destruct (Z.eq_dec (glfwCreateWindow_result env) NULL) as [Hw|Hw].
  { unfold trace. rewrite main_no_window by assumption. now constructor. }
  destruct (Z.eq_dec (glewInit_result env) GLEW_OK) as [Hg|Hg].
  2:{ unfold trace. rewrite main_no_glew by assumption. now constructor. }
  destruct (alive g) eqn:Ha.
  - rewrite trace_ready_alive by assumption. cbv zeta.
    destruct (first_exit env 0 fuel); now constructor.
  - unfold trace. rewrite main_skips_loop by assumption. now constructor.
Qed.

(** *** Nothing of a frame happens once the flag is down *)

Lemma settled_later (l : list Entry) (i j : nat) (ei ej : Entry) :
  settled l ->
  nth_error l i = Some ei ->
  nth_error l j = Some ej ->
  (i <= j)%nat ->
  alive (seen ei) = false ->
  calm ej = true.
Proof.
  intros (A & B & -> & HA & HB) Hi Hj Hle Hdead.
  destruct (Nat.lt_ge_cases i (List.length A)) as [Hlt|Hge].
  - rewrite nth_error_app1 in Hi by exact Hlt.
    apply nth_error_In in Hi.
    rewrite forallb_forall in HA. specialize (HA _ Hi).
    unfold live in HA. congruence.
  - rewrite nth_error_app2 in Hj by lia.
    apply nth_error_In in Hj.
    rewrite forallb_forall in HB. exact (HB _ Hj).
Qed.

Lemma live_frames (n : nat) (g : Globals) :
  alive g = true -> forallb live (frames_log n g) = true.
Proof.
  intros Ha. induction n as [|n IH]; [reflexivity|].
  cbn [frames_log]. rewrite forallb_app, IH.
  unfold frame_log, live. cbn. now rewrite Ha.
Qed.

Lemma live_last_polls (env : Env) (k : nat) (g : Globals) :
  alive g = true -> forallb live (last_polls env k g) = true.
Proof.
  intros Ha. unfold last_polls, live.
  destruct (_ =? _); cbn; now rewrite Ha.
Qed.

Lemma shape_settled (env : Env) (g : Globals) (l : list Entry) :
  Shape env g l -> settled l.
Proof.
  assert (Hall : forall l0, forallb live l0 = true -> settled l0).
  { intros l0 H. exists l0, []. now rewrite app_nil_r. }
  assert (Hnone : forall l0, forallb calm l0 = true -> settled l0).
  { intros l0 H. now exists [], l0. }
  assert (Hstart : forall p, alive g = true ->
            forallb live (startup_log g p) = true).
  { intros p Ha. destruct g as [p0 a x]. cbn in Ha. subst a. reflexivity. }
  intros [Hi|Hi Hw|Hi Hw Hg|Ha|n Ha|n Ha].
  - destruct g as [p0 [|] x]; [apply Hall|apply Hnone]; reflexivity.
  - destruct g as [p0 [|] x]; [apply Hall|apply Hnone]; reflexivity.
  - destruct g as [p0 [|] x]; [apply Hall|apply Hnone]; reflexivity.
  - apply Hnone. destruct g as [p0 a x]. cbn in Ha. subst a. reflexivity.
  - apply Hall. rewrite forallb_app, Hstart, live_frames; auto.
  - rewrite app_assoc. eexists. eexists. split; [reflexivity|]. split.
    + rewrite !forallb_app, Hstart, live_frames, live_last_polls; auto.
    + reflexivity.
Qed.

(** C2: in the log of any run of [main], under any behaviour of the window
    system and for any number of iterations, once a call has been made with
    the alive flag false, no later call (nor that call itself) is an entry
    into [draw] or a poll of [input_update], and the flag is still false. *)
Theorem no_frame_once_alive_is_false
    (env : Env) (fuel : nat) (g : Globals) (i j : nat) (ei ej : Entry) :
  nth_error (trace env fuel g) i = Some ei ->
  nth_error (trace env fuel g) j = Some ej ->
  (i <= j)%nat ->
  alive (seen ei) = false ->
  call ej <> Call_draw /\
  is_poll (call ej) = false /\
  alive (seen ej) = false.
Proof.
  intros Hi Hj Hle Hdead.
  pose proof (settled_later _ _ _ _ _
                (shape_settled _ _ _ (trace_shape env fuel g))
                Hi Hj Hle Hdead) as Hc.
  unfold calm in Hc. rewrite !andb_true_iff, !negb_true_iff in Hc.
  destruct Hc as [[Ha Hd] Hp]. repeat split; trivial.
  intros Heq. rewrite Heq in Hd. discriminate.
Qed.

Lemma no_frame_once_alive_is_false_witness :
  nth_error (trace env_close_at_once 3 globals_h) 11 = Some closing_entry /\
  alive (seen closing_entry) = false /\
  (call closing_entry <> Call_draw /\
   is_poll (call closing_entry) = false /\
   alive (seen closing_entry) = false).
Proof.
  assert (H : nth_error (trace env_close_at_once 3 globals_h) 11
              = Some closing_entry) by (vm_compute; reflexivity).
  split; [exact H|]. split; [reflexivity|].
  exact (no_frame_once_alive_is_false env_close_at_once 3 globals_h 11 11
           closing_entry closing_entry H H (le_n 11) eq_refl).
Defined.

(** ** Subsystem shutdown *)

Lemma count_last_polls_other (p : Call -> bool) (env : Env) (k : nat)
    (g : Globals) :
  (forall win key, p (Call_glfwGetKey win key) = false) ->
  (forall win, p (Call_glfwWindowShouldClose win) = false) ->
  count_call p (last_polls env k g) = 0%nat.
Proof.
  intros Hk Hc. unfold last_polls, count_call.
  destruct (_ =? _); cbn; now rewrite ?Hk, ?Hc.
Qed.

Lemma shape_terminate_le (env : Env) (g : Globals) (l : list Entry) :
  Shape env g l -> (count_call is_terminate l <= 1)%nat.
Proof.
  intros [Hi|Hi Hw|Hi Hw Hg|Ha|n Ha|n Ha];
    rewrite ?count_call_app, ?count_frames_other, ?count_last_polls_other
      by reflexivity;
    cbn; lia.
Qed.

(** C1, as the code has it: [glfwTerminate] is called at most once in any
    run; it is not called when [glfwInit] fails; and when
    [glfwCreateWindow] returns NULL it is called exactly once, as the last
    call of the run, no window having been destroyed. *)
Theorem shutdown_at_most_once (env : Env) (fuel : nat) (g : Globals) :
  (count_call is_terminate (trace env fuel g) <= 1)%nat /\
  (glfwInit_result env = 0 ->
   count_call is_terminate (trace env fuel g) = 0%nat) /\
  (glfwInit_result env <> 0 -> glfwCreateWindow_result env = NULL ->
   count_call is_terminate (trace env fuel g) = 1%nat /\
   count_call is_destroy (trace env fuel g) = 0%nat /\
   exists pre e, trace env fuel g = pre ++ [e] /\
                 call e = Call_glfwTerminate).
Proof.
  split; [apply (shape_terminate_le env g), trace_shape|]. split.
  - intros Hi. unfold trace. now rewrite main_no_glfw.
  - intros Hi Hw. unfold trace. rewrite main_no_window by assumption.
    cbn [snd log]. split; [reflexivity|]. split; [reflexivity|].
    exists (removelast (no_window_log g)).
    exists (mkEntry Call_glfwTerminate (lit g NULL)). split; reflexivity.
Qed.

Lemma shutdown_at_most_once_witness :
  glfwInit_result env_no_window <> 0 /\
  glfwCreateWindow_result env_no_window = NULL /\
  (count_call is_terminate (trace env_no_window 3 globals_h) = 1%nat /\
   count_call is_destroy (trace env_no_window 3 globals_h) = 0%nat /\
   exists pre e, trace env_no_window 3 globals_h = pre ++ [e] /\
                 call e = Call_glfwTerminate).
Proof.
  split; [discriminate|]. split; [reflexivity|].
  exact (proj2 (proj2 (shutdown_at_most_once env_no_window 3 globals_h))
               ltac:(discriminate) eq_refl).
Defined.

(** C1 as stated fails: when [glfwInit] fails, [main] returns -1 and the
    log holds no call of [glfwTerminate] at all. *)
Lemma shutdown_skipped_when_init_fails :
  exit_status env_no_glfw 0 globals_h = Some (-1) /\
  count_call is_terminate (trace env_no_glfw 0 globals_h) = 0%nat /\
  ~ shut_down_once_after_destroy (trace env_no_glfw 0 globals_h).
Proof.
  split; [reflexivity|]. split; [reflexivity|].
  intros [Hone _]. vm_compute in Hone. discriminate.
Qed.

(** ** Every run follows one of the paths *)

Lemma main_path (env : Env) (fuel : nat) (g : Globals) :
  Path env g fuel (exit_status env fuel g) (trace env fuel g).
Proof.
  destruct (Z.eq_dec (glfwInit_result env) 0) as [Hi|Hi].
  { unfold exit_status, trace. rewrite main_no_glfw by assumption.
    now constructor. }
  destruct (Z.eq_dec (glfwCreateWindow_result env) NULL) as [Hw|Hw].
  { unfold exit_status, trace. rewrite main_no_window by assumption.
    now constructor. }
  destruct (Z.eq_dec (glewInit_result env) GLEW_OK) as [Hg|Hg].
  2:{ unfold exit_status, trace. rewrite main_no_glew by assumption.
      now constructor. }
  destruct (alive g) eqn:Ha.
  - rewrite trace_ready_alive, exit_status_ready, Ha by assumption. cbv zeta.
    destruct (first_exit env 0 fuel) eqn:Hf; now constructor.
  - unfold exit_status, trace. rewrite main_skips_loop by assumption.
    now constructor.
Qed.

(** Case analysis on the path of the run [main env fuel (boot g)]; the goal
    must mention the run only through [exit_status] and [trace]. *)
Ltac by_path env fuel g :=
  generalize (main_path env fuel g);
  generalize (exit_status env fuel g), (trace env fuel g);
  let s := fresh "s" in let l := fresh "l" in let P := fresh "P" in
  intros s l P; destruct P.

Lemma startup_failed_false (env : Env) :
  glfwInit_result env <> 0 ->
  glfwCreateWindow_result env <> NULL ->
  glewInit_result env = GLEW_OK ->
  startup_failed env = false.
Proof.
  intros Hi Hw Hg. unfold startup_failed.
  apply Z.eqb_neq in Hi, Hw. now rewrite Hi, Hw, Hg.
Qed.

Lemma startup_failed_true (env : Env) :
  glfwInit_result env = 0 \/
  glfwCreateWindow_result env = NULL \/
  glewInit_result env <> GLEW_OK ->
  startup_failed env = true.
Proof.
  unfold startup_failed. intros [H|[H|H]].
  - now rewrite H.
  - rewrite H. cbn. now rewrite orb_true_r.
  - apply Z.eqb_neq in H. rewrite H. apply orb_true_r.
Qed.

(** X1: the status [main] returns is decided by the three guards alone:
    -1 when one of them fails, 0 otherwise. *)
Theorem exit_status_by_startup (env : Env) (fuel : nat) (g : Globals) (z : Z) :
  exit_status env fuel g = Some z ->
  z = if startup_failed env then -1 else 0.
Proof.
  by_path env fuel g; intros Hz; try discriminate;
    injection Hz as <-;
    first [ rewrite startup_failed_true by tauto; reflexivity
          | rewrite startup_failed_false by assumption; reflexivity ].
Qed.

Lemma exit_status_by_startup_witness :
  exit_status env_no_window 2 globals_h = Some (-1) /\
  -1 = if startup_failed env_no_window then -1 else 0.
Proof.
  split; [reflexivity|].
  exact (exit_status_by_startup env_no_window 2 globals_h (-1) eq_refl).
Defined.

(** *** Counting calls along a path *)

Lemma count_frames (q : Call -> bool) (n : nat) (g : Globals) :
  count_call q (frames_log n g) = (n * count_call q (frame_log g))%nat.
Proof.
  induction n as [|n IH]; [reflexivity|].
  cbn [frames_log]. rewrite count_call_app, IH. lia.
Qed.

Lemma count_get_key_last_polls (env : Env) (k : nat) (g : Globals) :
  count_call is_get_key (last_polls env k g) = 1%nat.
Proof.
  unfold last_polls. now destruct (_ =? _).
Qed.

Lemma count_should_close_last_polls (env : Env) (k : nat) (g : Globals) :
  count_call is_should_close (last_polls env k g) =
    if glfwGetKey_result env k =? GLFW_PRESS then 0%nat else 1%nat.
Proof.
  unfold last_polls. now destruct (_ =? _).
Qed.

Ltac count_path :=
  rewrite ?count_call_app, ?count_frames, ?count_get_key_last_polls,
    ?count_should_close_last_polls, ?count_last_polls_other by reflexivity;
  cbn.

(** X2: a message is written to standard error exactly in the runs in
    which one of the three guards fails, and then exactly once. *)
Theorem report_iff_startup_failed (env : Env) (fuel : nat) (g : Globals) :
  count_call is_report (trace env fuel g) =
    if startup_failed env then 1%nat else 0%nat.
Proof.
  by_path env fuel g;
    first [ rewrite startup_failed_true by tauto
          | rewrite startup_failed_false by assumption ];
    count_path; lia.
Qed.

(** X3: every run begins with the call of [glfwInit], which is made
    exactly once; [glfwCreateWindow] and [glewInit] are each called at most
    once. *)
Theorem startup_calls_once (env : Env) (fuel : nat) (g : Globals) :
  (exists g' rest, trace env fuel g = mkEntry Call_glfwInit g' :: rest) /\
  count_call is_init (trace env fuel g) = 1%nat /\
  (count_call is_create (trace env fuel g) <= 1)%nat /\
  (count_call is_glew_init (trace env fuel g) <= 1)%nat.
Proof.
  by_path env fuel g;
    (split; [eexists; eexists; reflexivity|]);
    count_path; lia.
Qed.

(** X4: in any run the loop polls at most [fuel] times; every entry into
    [draw] is preceded by a full poll, [glfwWindowShouldClose] is asked at
    most as often as [glfwGetKey], and the polls outnumber the draws by the
    number of calls of [glfwDestroyWindow], which is at most one. *)
Theorem poll_and_draw_counts (env : Env) (fuel : nat) (g : Globals) :
  (count_call is_draw (trace env fuel g)
     <= count_call is_should_close (trace env fuel g))%nat /\
  (count_call is_should_close (trace env fuel g)
     <= count_call is_get_key (trace env fuel g))%nat /\
  count_call is_get_key (trace env fuel g) =
    (count_call is_draw (trace env fuel g)
       + count_call is_destroy (trace env fuel g))%nat /\
  (count_call is_destroy (trace env fuel g) <= 1)%nat /\
  (count_call is_get_key (trace env fuel g) <= fuel)%nat.
Proof.
  by_path env fuel g; count_path; try lia.
  match goal with
  | H : first_exit _ _ _ = Some _ |- _ =>
      destruct (first_exit_some _ _ _ _ H) as (Hlt & Hx & _)
  end.
  unfold exit_requested in Hx. cbn in Hx.
  destruct (glfwGetKey_result env n =? GLFW_PRESS); cbn in *; lia.
Qed.

(** X5: when the alive flag is already false at the start and the three
    guards pass, [main] creates the window and returns 0 without a single
    poll or draw, and neither [glfwDestroyWindow] nor [glfwTerminate] is
    called. *)
Theorem dead_start_leaves_window (env : Env) (fuel : nat) (g : Globals) :
  glfwInit_result env <> 0 ->
  glfwCreateWindow_result env <> NULL ->
  glewInit_result env = GLEW_OK ->
  alive g = false ->
  exit_status env fuel g = Some 0 /\
  count_call is_create (trace env fuel g) = 1%nat /\
  count_call is_poll (trace env fuel g) = 0%nat /\
  count_call is_draw (trace env fuel g) = 0%nat /\
  count_call is_destroy (trace env fuel g) = 0%nat /\
  count_call is_terminate (trace env fuel g) = 0%nat.
Proof.
  intros Hi Hw Hg Ha. unfold exit_status, trace.
  rewrite main_skips_loop by assumption. cbn [fst snd ready log].
  repeat split; reflexivity.
Qed.

Lemma dead_start_leaves_window_witness :
  glfwInit_result env_idle <> 0 /\
  glfwCreateWindow_result env_idle <> NULL /\
  glewInit_result env_idle = GLEW_OK /\
  alive (dead globals_h) = false /\
  exit_status env_idle 4 (dead globals_h) = Some 0 /\
  count_call is_create (trace env_idle 4 (dead globals_h)) = 1%nat /\
  count_call is_poll (trace env_idle 4 (dead globals_h)) = 0%nat /\
  count_call is_draw (trace env_idle 4 (dead globals_h)) = 0%nat /\
  count_call is_destroy (trace env_idle 4 (dead globals_h)) = 0%nat /\
  count_call is_terminate (trace env_idle 4 (dead globals_h)) = 0%nat.
Proof.
  split; [discriminate|]. split; [discriminate|]. split; [reflexivity|].
  split; [reflexivity|].
  exact (dead_start_leaves_window env_idle 4 (dead globals_h)
           ltac:(discriminate) ltac:(discriminate) eq_refl eq_refl).
Defined.

(** *** Where a call can stand in a log *)

Lemma split_absent (q : Call -> bool) (l pre post : list Entry) (e : Entry) :
  count_call q l = 0%nat ->
  l = pre ++ e :: post ->
  q (call e) = true ->
  False.
Proof.
  intros Hc -> Hq. rewrite count_call_app in Hc.
  unfold count_call at 2 in Hc. cbn in Hc. rewrite Hq in Hc. cbn in Hc. lia.
Qed.

Lemma split_last_unique (q : Call -> bool) (d e : Entry) (post : list Entry) :
  forall A pre,
    count_call q A = 0%nat ->
    A ++ [d] = pre ++ e :: post ->
    q (call e) = true ->
    pre = A /\ e = d /\ post = [].
Proof.
  induction A as [|a A IH]; intros pre Hc Heq Hq.
  - destruct pre as [|x pre]; cbn in Heq.
    + injection Heq as <- <-. auto.
    + injection Heq as _ Heq. destruct pre; discriminate.
  - unfold count_call in Hc. cbn in Hc.
    destruct (q (call a)) eqn:Hqa; [discriminate|].
    destruct pre as [|x pre]; cbn in Heq.
    + injection Heq as <- _. congruence.
    + injection Heq as <- Heq.
      destruct (IH pre Hc Heq Hq) as (-> & -> & ->). auto.
Qed.

(** X6: in any run, a call of [glfwDestroyWindow] is the last call of the
    run and the only one of its kind; it passes the pointer that
    [glfwCreateWindow] returned, which is not NULL, and is made with the
    alive flag false. *)
Theorem destroy_is_final
    (env : Env) (fuel : nat) (g : Globals)
    (pre post : list Entry) (e : Entry) :
  trace env fuel g = pre ++ e :: post ->
  is_destroy (call e) = true ->
  post = [] /\
  count_call is_destroy pre = 0%nat /\
  call e = Call_glfwDestroyWindow (glfwCreateWindow_result env) /\
  glfwCreateWindow_result env <> NULL /\
  alive (seen e) = false.
Proof.
  by_path env fuel g; intros Heq Hq;
    try (exfalso; refine (split_absent is_destroy _ _ _ _ _ Heq Hq);
         count_path; lia).
  rewrite app_assoc in Heq.
  apply (split_last_unique is_destroy) in Heq; trivial.
  - destruct Heq as (-> & -> & ->). repeat split; trivial.
    count_path; lia.
  - count_path; lia.
Qed.

Lemma destroy_is_final_witness :
  trace env_close_at_once 3 globals_h =
    removelast (trace env_close_at_once 3 globals_h) ++ closing_entry :: [] /\
  is_destroy (call closing_entry) = true /\
  ([] = @nil Entry /\
   count_call is_destroy (removelast (trace env_close_at_once 3 globals_h))
     = 0%nat /\
   call closing_entry =
     Call_glfwDestroyWindow (glfwCreateWindow_result env_close_at_once) /\
   glfwCreateWindow_result env_close_at_once <> NULL /\
   alive (seen closing_entry) = false).
Proof.
  assert (H : trace env_close_at_once 3 globals_h =
              removelast (trace env_close_at_once 3 globals_h)
                ++ closing_entry :: []) by (vm_compute; reflexivity).
  split; [exact H|]. split; [reflexivity|].
  exact (destroy_is_final env_close_at_once 3 globals_h _ _ _ H eq_refl).
Defined.

(** *** Properties of every entry of a log *)

Lemma forallb_frames (f : Entry -> bool) (n : nat) (g : Globals) :
  forallb f (frame_log g) = true -> forallb f (frames_log n g) = true.
Proof.
  intros H. induction n as [|n IH]; [reflexivity|].
  cbn [frames_log]. now rewrite forallb_app, H, IH.
Qed.

Lemma forallb_last_polls (f : Entry -> bool) (env : Env) (k : nat)
    (g : Globals) :
  forallb f (frame_log g) = true -> forallb f (last_polls env k g) = true.
Proof.
  unfold frame_log, last_polls. cbn. intros H.
  apply andb_true_iff in H. destruct H as [H1 H].
  apply andb_true_iff in H. destruct H as [H2 _].
  destruct (_ =? _); cbn; now rewrite H1, ?H2.
Qed.

Lemma path_passes_window (env : Env) (fuel : nat) (g : Globals) :
  forallb (passes_window (glfwCreateWindow_result env)) (trace env fuel g)
  = true.
Proof.
  by_path env fuel g;
    rewrite ?forallb_app, ?forallb_frames, ?forallb_last_polls;
    unfold passes_window; cbn; rewrite ?Z.eqb_refl; reflexivity.
Qed.

Lemma path_window_not_null (env : Env) (fuel : nat) (g : Globals) :
  glfwCreateWindow_result env = NULL ->
  forallb (fun e => match window_arg (call e) with
                    | Some _ => false | None => true end)
          (trace env fuel g) = true.
Proof.
  by_path env fuel g; intros Hnull; try contradiction; reflexivity.
Qed.

(** X7: whenever a call hands a window pointer to GLFW, it is the pointer
    returned by [glfwCreateWindow], it is not NULL, and it is the value the
    global [window] holds at that moment. *)
Theorem window_calls_use_created_window
    (env : Env) (fuel : nat) (g : Globals) (e : Entry) (win : Z) :
  In e (trace env fuel g) ->
  window_arg (call e) = Some win ->
  win = glfwCreateWindow_result env /\
  win <> NULL /\
  window (seen e) = win.
Proof.
  intros Hin Harg.
  pose proof (path_passes_window env fuel g) as Hall.
  rewrite forallb_forall in Hall. specialize (Hall e Hin).
  unfold passes_window in Hall. rewrite Harg in Hall.
  apply andb_true_iff in Hall. destruct Hall as [Hw Hs].
  apply Z.eqb_eq in Hw, Hs. subst win. repeat split; trivial.
  intros Hnull.
  pose proof (path_window_not_null env fuel g Hnull) as Hno.
  rewrite forallb_forall in Hno. specialize (Hno e Hin).
  now rewrite Harg in Hno.
Qed.

Lemma window_calls_use_created_window_witness :
  In closing_entry (trace env_close_at_once 3 globals_h) /\
  window_arg (call closing_entry) = Some 4096 /\
  (4096 = glfwCreateWindow_result env_close_at_once /\
   4096 <> NULL /\
   window (seen closing_entry) = 4096).
Proof.
  assert (H : In closing_entry (trace env_close_at_once 3 globals_h)).
  { apply (nth_error_In _ 11). vm_compute. reflexivity. }
  split; [exact H|]. split; [reflexivity|].
  exact (window_calls_use_created_window env_close_at_once 3 globals_h
           closing_entry 4096 H eq_refl).
Defined.

(** X8: [glewExperimental] is true at every call [main] makes, whatever its
    value at start; in particular it is true when [glewInit] runs. *)
Theorem glewExperimental_set_at_every_call
    (env : Env) (fuel : nat) (g : Globals) (e : Entry) :
  In e (trace env fuel g) ->
  glewExperimental (seen e) = true.
Proof.
  assert (Hall : forallb (fun e => glewExperimental (seen e))
                         (trace env fuel g) = true).
  { by_path env fuel g;
      rewrite ?forallb_app, ?forallb_frames, ?forallb_last_polls;
      reflexivity. }
  rewrite forallb_forall in Hall. exact (Hall e).
Qed.

Lemma glewExperimental_set_at_every_call_witness :
  In closing_entry (trace env_close_at_once 3 globals_h) /\
  glewExperimental (seen closing_entry) = true.
Proof.
  assert (H : In closing_entry (trace env_close_at_once 3 globals_h)).
  { apply (nth_error_In _ 11). vm_compute. reflexivity. }
  split; [exact H|].
  exact (glewExperimental_set_at_every_call env_close_at_once 3 globals_h
           closing_entry H).
Defined.

(** X9: a poll or an entry into [draw] occurs only in runs in which all
    three guards passed and the alive flag was true at the start, and then
    only after the complete start-up sequence, which ends with
    [glfwSetInputMode]. *)
Theorem frames_only_after_startup
    (env : Env) (fuel : nat) (g : Globals) (e : Entry) :
  In e (trace env fuel g) ->
  is_poll (call e) || is_draw (call e) = true ->
  startup_failed env = false /\
  alive g = true /\
  exists rest,
    trace env fuel g
      = startup_log g (glfwCreateWindow_result env) ++ rest /\
    In e rest.
Proof.
  assert (Hstart : forall p,
            forallb (fun e => negb (is_poll (call e) || is_draw (call e)))
                    (startup_log g p) = true) by reflexivity.
  assert (Hno : forall l,
            forallb (fun e => negb (is_poll (call e) || is_draw (call e))) l
              = true ->
            In e l -> is_poll (call e) || is_draw (call e) = true -> False).
  { intros l Hall Hin Hq. rewrite forallb_forall in Hall.
    specialize (Hall e Hin). rewrite Hq in Hall. discriminate. }
  by_path env fuel g; intros Hin Hq;
    try (exfalso; refine (Hno _ _ Hin Hq); reflexivity).
  - split; [now apply startup_failed_false|]. split; [assumption|].
    eexists. split; [reflexivity|].
    apply in_app_or in Hin. destruct Hin as [Hin|Hin]; [|exact Hin].
    exfalso. exact (Hno _ (Hstart _) Hin Hq).
  - split; [now apply startup_failed_false|]. split; [assumption|].
    rewrite <- app_assoc. eexists. split; [reflexivity|].
    rewrite <- app_assoc in Hin.
    apply in_app_or in Hin. destruct Hin as [Hin|Hin]; [|exact Hin].
    exfalso. exact (Hno _ (Hstart _) Hin Hq).
Qed.

Lemma frames_only_after_startup_witness :
  exists e,
    In e (trace env_idle 2 globals_h) /\
    is_poll (call e) || is_draw (call e) = true /\
    (startup_failed env_idle = false /\
     alive globals_h = true /\
     exists rest,
       trace env_idle 2 globals_h
         = startup_log globals_h (glfwCreateWindow_result env_idle) ++ rest /\
       In e rest).
Proof.
  exists (mkEntry Call_draw (lit globals_h 4096)).
  assert (H : In (mkEntry Call_draw (lit globals_h 4096))
                 (trace env_idle 2 globals_h)).
  { apply (nth_error_In _ 11). vm_compute. reflexivity. }
  split; [exact H|]. split; [reflexivity|].
  exact (frames_only_after_startup env_idle 2 globals_h _ H eq_refl).
Defined.

(** ** The GL loader needs a current context *)

Lemma split_unique (q : Call -> bool) (d e : Entry) (B post : list Entry) :
  forall A pre,
    count_call q A = 0%nat ->
    count_call q B = 0%nat ->
    A ++ d :: B = pre ++ e :: post ->
    q (call e) = true ->
    pre = A /\ e = d /\ post = B.
Proof.
  induction A as [|a A IH]; intros pre HA HB Heq Hq.
  - destruct pre as [|x pre]; cbn in Heq.
    + injection Heq as <- <-. auto.
    + injection Heq as _ Heq. exfalso.
      exact (split_absent q _ _ _ _ HB Heq Hq).
  - unfold count_call in HA. cbn in HA.
    destruct (q (call a)) eqn:Hqa; [discriminate|].
    destruct pre as [|x pre]; cbn in Heq.
    + injection Heq as <- _. congruence.
    + injection Heq as <- Heq.
      destruct (IH pre HA HB Heq Hq) as (-> & -> & ->). auto.
Qed.

(** X12: [glewInit] is called only right after
    [glfwMakeContextCurrent] has been called on the window that
    [glfwCreateWindow] returned, and that window is not NULL. *)
Theorem glewInit_has_current_context
    (env : Env) (fuel : nat) (g : Globals)
    (pre post : list Entry) (e : Entry) :
  trace env fuel g = pre ++ e :: post ->
  is_glew_init (call e) = true ->
  glfwCreateWindow_result env <> NULL /\
  exists pre',
    pre = pre' ++
      [ mkEntry (Call_glfwMakeContextCurrent (glfwCreateWindow_result env))
                (lit g (glfwCreateWindow_result env)) ] /\
    count_call is_create pre' = 1%nat.
Proof.
  set (p := glfwCreateWindow_result env).
  assert (Hsplit : forall B,
            count_call is_glew_init B = 0%nat ->
            before_glewInit g p ++ mkEntry Call_glewInit (lit g p) :: B
              = pre ++ e :: post ->
            is_glew_init (call e) = true ->
            exists pre',
              pre = pre' ++ [mkEntry (Call_glfwMakeContextCurrent p) (lit g p)]
              /\ count_call is_create pre' = 1%nat).
  { intros B HB Heq Hq.
    apply (split_unique is_glew_init) in Heq; trivial.
    destruct Heq as (-> & _ & _).
    exists (firstn 6 (startup_log g p)). split; reflexivity. }
  by_path env fuel g; intros Heq Hq;
    try (exfalso; refine (split_absent is_glew_init _ _ _ _ _ Heq Hq);
         reflexivity);
    (split; [assumption|]).
  - apply (Hsplit [mkEntry (Call_fprintf_stderr
                              ("FAILED TO INITIALIZE GLEW!" ++ nl)) (lit g p)]);
      trivial.
  - apply (Hsplit [mkEntry (Call_glfwSetInputMode p GLFW_STICKY_KEYS GL_TRUE)
                           (lit g p)]); trivial.
  - apply (Hsplit (mkEntry (Call_glfwSetInputMode p GLFW_STICKY_KEYS GL_TRUE)
                           (lit g p) :: frames_log fuel (lit g p))); trivial.
    change (mkEntry (Call_glfwSetInputMode p GLFW_STICKY_KEYS GL_TRUE)
                    (lit g p) :: frames_log fuel (lit g p))
      with ([mkEntry (Call_glfwSetInputMode p GLFW_STICKY_KEYS GL_TRUE)
                     (lit g p)] ++ frames_log fuel (lit g p)).
    count_path. lia.
  - apply (Hsplit (mkEntry (Call_glfwSetInputMode p GLFW_STICKY_KEYS GL_TRUE)
                           (lit g p)
                   :: frames_log n (lit g p) ++ last_polls env n (lit g p)
                   ++ [mkEntry (Call_glfwDestroyWindow p) (dead (lit g p))]));
      trivial.
    change (mkEntry (Call_glfwSetInputMode p GLFW_STICKY_KEYS GL_TRUE)
                    (lit g p)
            :: frames_log n (lit g p) ++ last_polls env n (lit g p)
            ++ [mkEntry (Call_glfwDestroyWindow p) (dead (lit g p))])
      with ([mkEntry (Call_glfwSetInputMode p GLFW_STICKY_KEYS GL_TRUE)
                     (lit g p)]
            ++ frames_log n (lit g p) ++ last_polls env n (lit g p)
            ++ [mkEntry (Call_glfwDestroyWindow p) (dead (lit g p))]).
    count_path. lia.
Qed.

Lemma glewInit_has_current_context_witness :
  trace env_no_glew 1 globals_h =
    before_glewInit globals_h 4096
      ++ mkEntry Call_glewInit (lit globals_h 4096)
      :: [ mkEntry (Call_fprintf_stderr ("FAILED TO INITIALIZE GLEW!" ++ nl))
                   (lit globals_h 4096) ] /\
  is_glew_init (call (mkEntry Call_glewInit (lit globals_h 4096))) = true /\
  (glfwCreateWindow_result env_no_glew <> NULL /\
   exists pre',
     before_glewInit globals_h 4096 = pre' ++
       [ mkEntry (Call_glfwMakeContextCurrent
                    (glfwCreateWindow_result env_no_glew))
                 (lit globals_h (glfwCreateWindow_result env_no_glew)) ] /\
     count_call is_create pre' = 1%nat).
Proof.
  assert (H : trace env_no_glew 1 globals_h =
    before_glewInit globals_h 4096
      ++ mkEntry Call_glewInit (lit globals_h 4096)
      :: [ mkEntry (Call_fprintf_stderr ("FAILED TO INITIALIZE GLEW!" ++ nl))
                   (lit globals_h 4096) ]) by (vm_compute; reflexivity).
  split; [exact H|]. split; [reflexivity|].
  exact (glewInit_has_current_context env_no_glew 1 globals_h _ _ _ H eq_refl).
Defined.

(** ** The exit key *)

Lemma path_asks_escape (env : Env) (fuel : nat) (g : Globals) :
  forallb asks_escape (trace env fuel g) = true.
Proof.
  by_path env fuel g;
    rewrite ?forallb_app, ?forallb_frames, ?forallb_last_polls;
    reflexivity.
Qed.

(** C4: [input_update] asks GLFW for the state of [GLFW_KEY_ESCAPE] on the
    program's window and, only when that key is not reported pressed, for
    the window's close flag; it makes no other call.  On an alive program
    it leaves the alive flag false exactly when the answer to the first
    call is [GLFW_PRESS] or the answer to the second is non-zero.  [draw]
    and [explode] leave the globals alone.  In a run of [main] that starts
    alive the flag is false at the end only if one of the polls made
    observed that condition, and every key asked for in any run is
    [GLFW_KEY_ESCAPE], on the window [glfwCreateWindow] returned. *)
Theorem alive_cleared_only_by_exit_request (env : Env) :
  (forall w,
     log (snd (input_update env w)) = log w ++ poll_entries env w) /\
  (forall w, alive (globals w) = true ->
     (alive (globals (snd (input_update env w))) = false <->
      glfwGetKey_result env (key_polls w) = GLFW_PRESS \/
      glfwWindowShouldClose_result env (close_polls w) <> 0)) /\
  (forall w, globals (snd (draw w)) = globals w) /\
  (forall w, globals (snd (explode w)) = globals w) /\
  (forall fuel g, alive g = true ->
     alive (final_globals env fuel g) = false ->
     exists k, (k < fuel)%nat /\
       (glfwGetKey_result env k = GLFW_PRESS \/
        glfwWindowShouldClose_result env k <> 0)) /\
  (forall fuel g e win key,
     In e (trace env fuel g) ->
     call e = Call_glfwGetKey win key ->
     key = GLFW_KEY_ESCAPE /\ win = glfwCreateWindow_result env).
Proof.
  split; [|split; [|split; [exact draw_globals|split;
                            [exact explode_globals|split]]]].
  - intros w. rewrite input_update_globals. reflexivity.
  - intros w Ha. rewrite input_update_globals. cbn [snd globals].
    destruct (Z.eqb_spec (glfwGetKey_result env (key_polls w)) GLFW_PRESS)
      as [Hk|Hk]; cbn.
    + split; [now left|reflexivity].
    + destruct (Z.eqb_spec (glfwWindowShouldClose_result env (close_polls w)) 0)
        as [Hc|Hc]; cbn.
      * rewrite Ha. split; [discriminate|intros [?|?]; contradiction].
      * split; [now right|reflexivity].
  - intros fuel g Ha Hd.
    destruct (final_alive_false env fuel g Ha Hd) as (k & Hlt & Hx & _).
    exists k. split; [exact Hlt|]. now apply exit_requested_iff.
  - intros fuel g e win key Hin Hcall.
    pose proof (path_asks_escape env fuel g) as Hkey.
    pose proof (path_passes_window env fuel g) as Hwin.
    rewrite forallb_forall in Hkey, Hwin.
    specialize (Hkey e Hin). specialize (Hwin e Hin).
    unfold asks_escape in Hkey. unfold passes_window in Hwin.
    rewrite Hcall in Hkey, Hwin. cbn in Hwin.
    apply andb_true_iff in Hwin. destruct Hwin as [Hwin _].
    apply Z.eqb_eq in Hkey, Hwin. now split.
Qed.

Lemma alive_cleared_only_by_exit_request_witness :
  alive (globals (ready env_close_at_once globals_h)) = true /\
  log (snd (input_update env_close_at_once
              (ready env_close_at_once globals_h))) =
    startup_log globals_h 4096 ++
    [ mkEntry (Call_glfwGetKey 4096 GLFW_KEY_ESCAPE) (lit globals_h 4096);
      mkEntry (Call_glfwWindowShouldClose 4096) (lit globals_h 4096) ] /\
  (alive (globals (snd (input_update env_close_at_once
                          (ready env_close_at_once globals_h))))
     = false <->
   glfwGetKey_result env_close_at_once 0 = GLFW_PRESS \/
   glfwWindowShouldClose_result env_close_at_once 0 <> 0).
Proof.
  split; [reflexivity|]. split.
  - exact (proj1 (alive_cleared_only_by_exit_request env_close_at_once)
                 (ready env_close_at_once globals_h)).
  - exact (proj1 (proj2 (alive_cleared_only_by_exit_request env_close_at_once))
                 (ready env_close_at_once globals_h) eq_refl).
Defined.
